(** * recompose: [nest]

    A shallow embedding of [src/packages/recompose/nest.js] and the
    properties of the nesting combinator.

    {[
    const nest = (...Components) => {
      const factories = Components.map(createEagerFactory)
      const Nest = ({ ...props, children }) =>
        factories.reduceRight((child, factory) => factory(props, child), children)

      if (process.env.NODE_ENV !== 'production') {
        const displayNames = Components.map(getDisplayName)
        Nest.displayName = `nest(${displayNames.join(', ')})`
      }

      return Nest
    }
    ]}

    Modelling choices.
    - A props object is a finite map from property names to values,
      [gmap string Value].  Reading a property that is not there gives
      [undefined].
    - The object pattern [{ ...props, children }] has its rest element first.
      The language standard has no such pattern; the transpiler the library
      is built with (Babel 6) accepts it, and there a rest element leaves out
      the keys written before it in the pattern.  None is, so [props] is a
      copy of the whole argument, [children] included, and [children] is the
      [children] property of the argument.
    - [createEagerFactory] and [getDisplayName] are imported from sibling
      modules; the development is parametric in them.  A factory is a function
      of its two arguments, as in the library's data model.
    - The calls that the code of [nest] makes (to the two helpers and to the
      factories) are recorded in a log threaded through a state monad, so that
      "how often" and "with which arguments" are statements about the log.
    - Module [Stateful] embeds the same code for factories that read and
      write a state of the program, to tell what the nested factory keeps
      between calls from what its inputs keep. *)

From stdpp Require Import gmap strings list fin_maps.

Set Default Proof Using "Type".
Set Warnings "-register-all".

(** ** Array and string primitives used by the source *)

(** [Array.prototype.join]: the result starts empty; before every element but
    the first the separator is appended, then the element. *)
Fixpoint join_from (sep : string) (k : nat) (R : string) (l : list string) : string :=
  match l with
  | [] => R
  | x :: l' =>
      join_from sep (S k) ((match k with 0 => R | S _ => R +:+ sep end) +:+ x) l'
  end.

Definition join (sep : string) (l : list string) : string :=
  join_from sep 0 "" l.

(** The helper that the transpiler puts in place of an object rest element:
    a copy of [obj] without the listed keys. *)
Definition objectWithoutProperties {Value} (obj : gmap string Value)
    (keys : list string) : gmap string Value :=
  foldr delete obj keys.

(** ** The host: values and the imported helpers *)

(** A normalized factory: [(props, children) => renderable]. *)
Definition Factory (Value : Type) : Type := gmap string Value → Value → Value.

(** What [nest.js] takes from outside: the values of the language with their
    [undefined], and the default exports of the two modules it imports. *)
Class Host (Value Component : Type) : Type := {
  undefined : Value;
  createEagerFactory : Component → Factory Value;
  getDisplayName : Component → string
}.

(** ** The monad of logged calls *)

(** The calls made by the code of [nest]. *)
Inductive event (Value Component : Type) : Type :=
| Normalize (C : Component)
    (* createEagerFactory(C) *)
| DisplayName (C : Component)
    (* getDisplayName(C) *)
| Render (k : nat) (props : gmap string Value) (child : Value).
    (* factories[k](props, child) *)

Arguments Normalize {Value Component} C.
Arguments DisplayName {Value Component} C.
Arguments Render {Value Component} k props child.

Section Monad.
Context {Value Component : Type}.

(** A computation reads and extends the log of the calls made so far. *)
Definition M (A : Type) : Type :=
  list (event Value Component) → A * list (event Value Component).

Definition ret {A} (a : A) : M A := fun log => (a, log).

Definition bind {A B} (m : M A) (f : A → M B) : M B :=
  fun log => let '(a, log') := m log in f a log'.

Definition tick (e : event Value Component) : M unit :=
  fun log => (tt, log ++ [e]).
End Monad.

Arguments M : clear implicits.

Notation "x <- m ;; k" := (bind m (fun x => k))
  (at level 20, m at level 99, k at level 200, only parsing).
Notation "m ;; k" := (bind m (fun _ => k))
  (at level 100, k at level 200, only parsing).

Section Arrays.
Context {Value Component : Type}.
Local Abbreviation M' := (M Value Component).

(** [Array.prototype.map]: the callback is applied to the elements in
    ascending index order (the arrays here are built from a rest parameter
    and have no holes). *)
Fixpoint array_map {A B} (callback : A → M' B) (O : list A) : M' (list B) :=
  match O with
  | [] => ret []
  | x :: O' =>
      y <- callback x;;
      ys <- array_map callback O';;
      ret (y :: ys)
  end.

(** [Array.prototype.reduceRight] with an initial value: [k] runs from
    [len - 1] down to [0]; at every index that is present the accumulator
    becomes [callback(accumulator, O[k], k)]. *)
Fixpoint reduceRight_from {A B} (callback : B → A → nat → M' B)
    (O : list A) (k : nat) (accumulator : B) : M' B :=
  match k with
  | 0 => ret accumulator
  | S k' =>
      match O !! k' with
      | Some x =>
          accumulator' <- callback accumulator x k';;
          reduceRight_from callback O k' accumulator'
      | None => reduceRight_from callback O k' accumulator
      end
  end.

Definition reduceRight {A B} (callback : B → A → nat → M' B)
    (O : list A) (initialValue : B) : M' B :=
  reduceRight_from callback O (length O) initialValue.

(** Calling a function once per argument of a list, in order. *)
Fixpoint call_each {A B} (f : A → M' B) (args : list A) : M' (list B) :=
  match args with
  | [] => ret []
  | a :: args' =>
      b <- f a;;
      bs <- call_each f args';;
      ret (b :: bs)
  end.
End Arrays.

(** ** The source *)

Section Nest.
Context `{Host Value Component}.
Local Abbreviation Props := (gmap string Value).
Local Abbreviation M' := (M Value Component).

(** The two bindings of the pattern [{ ...props, children }].  The rest
    element leaves out the keys written before it: there is none. *)
Definition rest_props (arg : Props) : Props := objectWithoutProperties arg [].
Definition children_of (arg : Props) : Value :=
  default undefined (arg !! "children").

(** The calls to the imported helpers and to a factory, logged.  [map] hands
    its callback the index and the array as well; the helpers take one
    parameter and ignore them. *)
Definition call_createEagerFactory (C : Component) : M' (Factory Value) :=
  tick (Normalize C);; ret (createEagerFactory C).

Definition call_getDisplayName (C : Component) : M' string :=
  tick (DisplayName C);; ret (getDisplayName C).

Definition call_factory (k : nat) (factory : Factory Value)
    (props : Props) (child : Value) : M' Value :=
  tick (Render k props child);; ret (factory props child).

(** The arrow function [Nest], with the variable [factories] it closes
    over made a parameter. *)
Definition Nest (factories : list (Factory Value)) (arg : Props) : M' Value :=
  let props := rest_props arg in
  let children := children_of arg in
  reduceRight (fun child factory k => call_factory k factory props child)
    factories children.

(** The function object that [nest] returns: what calling it does, and its
    [displayName] property (absent unless assigned). *)
Record NestedFactory : Type := {
  call : Props → M' Value;
  displayName : option string
}.

(** [process.env.NODE_ENV !== 'production'], the variable being a string or
    not set. *)
Definition not_production (NODE_ENV : option string) : bool :=
  bool_decide (NODE_ENV ≠ Some "production").

(** [nest(...Components)]: the factories are built first, once; the label is
    computed and assigned outside production only. *)
Definition nest (NODE_ENV : option string) (Components : list Component)
    : M' NestedFactory :=
  factories <- array_map call_createEagerFactory Components;;
  if not_production NODE_ENV then
    displayNames <- array_map call_getDisplayName Components;;
    ret {| call := Nest factories;
           displayName := Some ("nest(" +:+ join ", " displayNames +:+ ")") |}
  else
    ret {| call := Nest factories; displayName := None |}.

(** Building a nested factory in a fresh log and calling it once. *)
Definition render (NODE_ENV : option string) (Components : list Component)
    (arg : Props) : Value * list (event Value Component) :=
  let '(N, log) := nest NODE_ENV Components [] in
  call N arg log.

End Nest.

(** ** What the specification says the nested factory computes *)

(** The nesting of the specification: the first factory outermost, the last
    innermost, [X] at the core; every level is given the same [props]. *)
Fixpoint nested {Value} (Fs : list (Factory Value))
    (props : gmap string Value) (X : Value) : Value :=
  match Fs with
  | [] => X
  | F :: Fs' => F props (nested Fs' props X)
  end.

(** The factory calls of one right-to-left pass over [Fs], whose first element
    has index [i]: the last factory is called first, on [X]; each earlier one
    on the result of the levels inside it. *)
Fixpoint render_events {Value Component} (i : nat) (Fs : list (Factory Value))
    (props : gmap string Value) (X : Value) : list (event Value Component) :=
  match Fs with
  | [] => []
  | F :: Fs' =>
      render_events (S i) Fs' props X ++ [Render i props (nested Fs' props X)]
  end.

(** The components on which a log records a call of [createEagerFactory], in
    the order of the calls. *)
Definition normalizer_calls {Value Component}
    (log : list (event Value Component)) : list Component :=
  omap (fun e => match e with Normalize C => Some C | _ => None end) log.

(** The props objects that a log records as first argument of a factory. *)
Definition observed_props {Value Component}
    (log : list (event Value Component)) : list (gmap string Value) :=
  omap (fun e => match e with Render _ props _ => Some props | _ => None end) log.

(** The components on which a log records a call of [getDisplayName], in the
    order of the calls. *)
Definition name_calls {Value Component}
    (log : list (event Value Component)) : list Component :=
  omap (fun e => match e with DisplayName C => Some C | _ => None end) log.

(** The indices of the factories that a log records as called, in the order of
    the calls. *)
Definition rendered_indices {Value Component}
    (log : list (event Value Component)) : list nat :=
  omap (fun e => match e with Render k _ _ => Some k | _ => None end) log.

(** A factory that does not look at the [children] of its first argument:
    whatever is put there, it returns the same.  The factory of a one-argument
    renderer is one, for it overwrites that key with its second argument. *)
Definition overwrites_children {Value} (F : Factory Value) : Prop :=
  ∀ props child X, F (<["children" := X]> props) child = F props child.

(** ** Factories that keep state *)

(** The same code, for factories that read and write a state of the program
    when they are called.  Building a factory leaves the state alone. *)
Module Stateful.

Section Stateful.
Context {Value Component State : Type}.

(** A computation in the state of the program. *)
Definition St (A : Type) : Type := State → A * State.

(** A normalized factory that may keep state. *)
Definition Factory : Type := gmap string Value → Value → St Value.

Variable undefined : Value.
Variable createEagerFactory : Component → Factory.
Variable getDisplayName : Component → string.

(** [Array.prototype.reduceRight] with an initial value, the callback running
    in the state. *)
Fixpoint reduceRight_from {A B} (callback : B → A → nat → St B)
    (O : list A) (k : nat) (accumulator : B) : St B :=
  match k with
  | 0 => fun s => (accumulator, s)
  | S k' =>
      match O !! k' with
      | Some x =>
          fun s =>
            let '(accumulator', s') := callback accumulator x k' s in
            reduceRight_from callback O k' accumulator' s'
      | None => reduceRight_from callback O k' accumulator
      end
  end.

Definition reduceRight {A B} (callback : B → A → nat → St B)
    (O : list A) (initialValue : B) : St B :=
  reduceRight_from callback O (length O) initialValue.

Definition children_of (arg : gmap string Value) : Value :=
  default undefined (arg !! "children").

Definition Nest (factories : list Factory) (arg : gmap string Value)
    : St Value :=
  let props := objectWithoutProperties arg [] in
  let children := children_of arg in
  reduceRight (fun child factory _ => factory props child) factories children.

Record NestedFactory : Type := {
  call : gmap string Value → St Value;
  displayName : option string
}.

Definition nest (NODE_ENV : option string) (Components : list Component)
    : NestedFactory :=
  let factories := createEagerFactory <$> Components in
  if bool_decide (NODE_ENV ≠ Some "production") then
    let displayNames := getDisplayName <$> Components in
    {| call := Nest factories;
       displayName := Some ("nest(" +:+ join ", " displayNames +:+ ")") |}
  else
    {| call := Nest factories; displayName := None |}.

(** A factory of the library's data model, a function of its two arguments,
    as a factory that leaves the state alone. *)
Definition lift (F : gmap string Value → Value → Value) : Factory :=
  fun props child s => (F props child, s).

(** A factory that keeps no state: it leaves the state as it is and returns
    the same in every state. *)
Definition stateless (F : Factory) : Prop :=
  ∀ props child s s', F props child s = ((F props child s').1, s).

End Stateful.

(** A component that counts how often it is rendered: its factory renders the
    count so far and adds one to it. *)
Definition counter : @Factory nat nat :=
  fun _ _ count => (count, S count).

(** A component that renders its child, whatever the state. *)
Definition passthrough : @Factory nat nat :=
  fun _ child count => (child, count).

(** [nest] over components that are their own factories, all called
    [Component]; values and states are numbers, [0] standing for
    [undefined]. *)
Definition nest_of (Components : list (@Factory nat nat))
    : @NestedFactory nat nat :=
  nest 0 (fun C => C) (fun _ => "Component") None Components.

End Stateful.

(** ** A concrete host: elements of a markup tree *)

Module Markup.

(** Renderable values: text, or an element with a type and the props it was
    rendered with (its children among them, under the key [children]). *)
Inductive value : Type :=
| VUndefined
| VText (s : string)
| VElement (type : string) (props : list (string * value)).

(** Modelled from the spec: the component-like inputs, of which
    [createEagerFactory.js] and [getDisplayName.js] (not part of the sources
    at hand) are the consumers.  A component-like value is a one-argument
    renderer [(props) => renderable] or an already normalized two-argument
    factory [(props, children) => renderable]; it may carry a name. *)
Inductive component : Type :=
| Renderer (name : option string) (render : gmap string value → value)
| TwoArgument (name : option string) (factory : Factory value).

(** Modelled from the spec: [createEagerFactory.js].  A two-argument callable
    is invoked directly; a one-argument renderer is adapted so that the
    second argument is threaded into the props passed to it under the
    reserved key [children]. *)
Definition normalize (C : component) : Factory value :=
  match C with
  | TwoArgument _ factory => factory
  | Renderer _ render =>
      fun props children => render (<["children" := children]> props)
  end.

(** Modelled from the spec: [getDisplayName.js].  The human-readable name of
    the input, or a generic name for an anonymous one. *)
Definition name_of (C : component) : string :=
  match C with
  | Renderer name _ | TwoArgument name _ => default "Component" name
  end.

#[export] Instance host : Host value component := {|
  undefined := VUndefined;
  createEagerFactory := normalize;
  getDisplayName := name_of
|}.

(** A named component that renders an element of its own type, keeping the
    props it is given. *)
Definition element (type : string) : component :=
  Renderer (Some type) (fun props => VElement type (map_to_list props)).

(** A two-argument factory that renders what it finds under the [children]
    key of its first argument. *)
Definition props_children : component :=
  TwoArgument None (fun props _ => default VUndefined (props !! "children")).

(** Arguments of a call: [{ children: 'x', pass: 'through' }],
    [{ children: 'x' }] and [{ pass: 'through' }]. *)
Definition with_children : gmap string value :=
  {[ "children" := VText "x"; "pass" := VText "through" ]}.
Definition only_children : gmap string value :=
  {[ "children" := VText "x" ]}.
Definition without_children : gmap string value :=
  {[ "pass" := VText "through" ]}.

(** A nested factory used as a component: the one-argument function
    [nest(B, C)], without a name. *)
Definition nest_B_C : component :=
  Renderer None
    (fun arg => (Nest (normalize <$> [element "B"; element "C"]) arg []).1).

End Markup.

(** ** Strings *)

Lemma string_app_assoc (a b c : string) : (a +:+ b) +:+ c = a +:+ b +:+ c.
Proof.
  induction a as [|ch a IH]; [done |].
  change (String ch ((a +:+ b) +:+ c) = String ch (a +:+ b +:+ c)).
  by rewrite IH.
Qed.

(** Once the first element has been written, [join] appends the separator
    before every element that is left. *)
Lemma join_from_S sep k R l :
  join_from sep (S k) R l =
    match l with [] => R | _ :: _ => R +:+ sep +:+ String.concat sep l end.
Proof.
  revert k R. induction l as [|x l IH]; intros k R; [done |].
  cbn [join_from]. rewrite IH. destruct l as [|y l].
  - simpl. apply string_app_assoc.
  - cbn [String.concat]. by rewrite !string_app_assoc.
Qed.

(** The loop of [Array.prototype.join] computes the separated concatenation. *)
Lemma join_concat sep l : join sep l = String.concat sep l.
Proof.
  unfold join. destruct l as [|x l]; [done |].
  cbn [join_from]. rewrite join_from_S. by destruct l.
Qed.

(** ** The fold *)

Section Fold.
Context {Value Component : Type}.
Implicit Types (Fs : list (Factory Value)) (props : gmap string Value).
Implicit Types (X : Value) (log : list (event Value Component)).

Lemma nested_snoc Fs F props X :
  nested (Fs ++ [F]) props X = nested Fs props (F props X).
Proof. induction Fs as [|G Fs IH]; simpl; [done | by rewrite IH]. Qed.

Lemma render_events_snoc i Fs F props X :
  render_events (Component:=Component) i (Fs ++ [F]) props X =
    Render (i + length Fs) props X :: render_events i Fs props (F props X).
Proof.
  revert i. induction Fs as [|G Fs IH]; intros i; simpl.
  - by rewrite Nat.add_0_r.
  - rewrite IH, nested_snoc. simpl. by rewrite Nat.add_succ_r.
Qed.

Lemma render_events_length i Fs props X :
  length (render_events (Component:=Component) i Fs props X) = length Fs.
Proof.
  revert i. induction Fs as [|G Fs IH]; intros i; simpl; [done |].
  rewrite length_app, IH. simpl. lia.
Qed.

(** Every call of a pass carries the same first argument. *)
Lemma observed_props_render_events i Fs props X :
  observed_props (render_events (Component:=Component) i Fs props X) =
    replicate (length Fs) props.
Proof.
  revert i. induction Fs as [|G Fs IH]; intros i; [done |].
  cbn [render_events length]. unfold observed_props in *.
  rewrite omap_app, IH. simpl. by rewrite <- replicate_S_end.
Qed.

(** A pass calls no helper. *)
Lemma normalizer_calls_render_events i Fs props X :
  normalizer_calls (render_events (Component:=Component) i Fs props X) = [].
Proof.
  revert i. induction Fs as [|G Fs IH]; intros i; [done |].
  cbn [render_events]. unfold normalizer_calls in *.
  by rewrite omap_app, IH.
Qed.

(** The loop of [reduceRight], stopped with [k] indices left to visit, has
    nested the accumulator in the first [k] factories. *)
Lemma reduceRight_from_run Fs props k X log :
  k ≤ length Fs →
  reduceRight_from
    (fun child factory k => call_factory k factory props child) Fs k X log =
  (nested (take k Fs) props X, log ++ render_events 0 (take k Fs) props X).
Proof.
  revert X log. induction k as [|k IH]; intros X log Hk.
  - simpl. unfold ret. by rewrite app_nil_r.
  - cbn [reduceRight_from].
    destruct (Fs !! k) as [F|] eqn:HF.
    2:{ apply lookup_ge_None in HF. lia. }
    rewrite (take_S_r _ _ _ HF), nested_snoc, render_events_snoc.
    unfold bind at 1. unfold call_factory at 1. unfold bind, tick, ret.
    rewrite IH by lia. rewrite <- app_assoc. simpl.
    rewrite length_take_le by lia. done.
Qed.

Lemma reduceRight_run Fs props X log :
  reduceRight
    (fun child factory k => call_factory k factory props child) Fs X log =
  (nested Fs props X, log ++ render_events 0 Fs props X).
Proof.
  unfold reduceRight. rewrite reduceRight_from_run by done.
  by rewrite firstn_all.
Qed.

(** A logged call of a function, mapped over an array. *)
Lemma array_map_logged {A B} (ev : A → event Value Component) (g : A → B)
    (O : list A) log :
  array_map (fun x => bind (tick (ev x)) (fun _ => ret (g x))) O log =
    (g <$> O, log ++ (ev <$> O)).
Proof.
  revert log. induction O as [|x O IH]; intros log; simpl.
  - unfold ret. by rewrite app_nil_r.
  - unfold bind at 1 2. unfold tick at 1. unfold ret at 1.
    unfold bind at 1. rewrite IH. unfold ret. by rewrite <- app_assoc.
Qed.

End Fold.

(** ** The nested factory *)

Section Properties.
Context `{Host Value Component}.

Implicit Types (Cs : list Component) (arg : gmap string Value).
Implicit Types (log : list (event Value Component)) (env : option string).
Implicit Types (Fs : list (Factory Value)).

Lemma normalize_all Cs log :
  array_map call_createEagerFactory Cs log =
    (createEagerFactory <$> Cs, log ++ (Normalize <$> Cs)).
Proof. exact (array_map_logged Normalize createEagerFactory Cs log). Qed.

Lemma name_all Cs log :
  array_map call_getDisplayName Cs log =
    (getDisplayName <$> Cs, log ++ (DisplayName <$> Cs)).
Proof. exact (array_map_logged DisplayName getDisplayName Cs log). Qed.

(** One call of the arrow function. *)
Lemma Nest_run Fs arg log :
  Nest Fs arg log =
    (nested Fs (rest_props arg) (children_of arg),
     log ++ render_events 0 Fs (rest_props arg) (children_of arg)).
Proof. apply reduceRight_run. Qed.

(** The construction: the function object returned and the calls made. *)
Lemma nest_run env Cs log :
  nest env Cs log =
    ({| call := Nest (createEagerFactory <$> Cs);
        displayName :=
          if not_production env
          then Some ("nest(" +:+ join ", " (getDisplayName <$> Cs) +:+ ")")
          else None |},
     log ++ (Normalize <$> Cs) ++
       (if not_production env then DisplayName <$> Cs else [])).
Proof.
  unfold nest, bind. rewrite normalize_all.
  destruct (not_production env).
  - rewrite name_all. unfold ret. by rewrite <- app_assoc.
  - unfold ret. by rewrite app_nil_r.
Qed.

Lemma nest_call env Cs log :
  call (nest env Cs log).1 = Nest (createEagerFactory <$> Cs).
Proof. by rewrite nest_run. Qed.

Lemma nest_displayName env Cs log :
  displayName (nest env Cs log).1 =
    if not_production env
    then Some ("nest(" +:+ join ", " (getDisplayName <$> Cs) +:+ ")")
    else None.
Proof. by rewrite nest_run. Qed.

Lemma not_production_true env :
  env ≠ Some "production" → not_production env = true.
Proof. intros Henv. unfold not_production. by rewrite bool_decide_eq_true. Qed.

Lemma normalizer_calls_app log log' :
  normalizer_calls (log ++ log') = normalizer_calls log ++ normalizer_calls log'.
Proof. apply omap_app. Qed.

Lemma observed_props_app log log' :
  observed_props (log ++ log') = observed_props log ++ observed_props log'.
Proof. apply omap_app. Qed.

Lemma normalizer_calls_Normalize Cs :
  normalizer_calls (Value:=Value) (Normalize <$> Cs) = Cs.
Proof. induction Cs as [|C Cs IH]; [done |]. cbn. by f_equal. Qed.

Lemma normalizer_calls_DisplayName Cs :
  normalizer_calls (Value:=Value) (DisplayName <$> Cs) = [].
Proof. by induction Cs. Qed.

(** Calls of the nested factory leave the record of normalizations as it
    was, however many there are. *)
Lemma call_each_Nest_normalizer_calls Fs (args : list (gmap string Value)) log :
  normalizer_calls (call_each (Nest Fs) args log).2 = normalizer_calls log.
Proof.
  revert log. induction args as [|arg args IH]; intros log; [done |].
  cbn [call_each]. unfold bind at 1. rewrite Nest_run.
  unfold bind at 1. destruct (call_each _ args _) as [bs log'] eqn:E.
  unfold ret. cbn [snd].
  change log' with (bs, log').2. rewrite <- E, IH.
  by rewrite normalizer_calls_app, normalizer_calls_render_events, app_nil_r.
Qed.

(** The rest element of [Nest]'s pattern takes the whole argument. *)
Lemma rest_props_all arg : rest_props arg = arg.
Proof. done. Qed.

(** *** The fold *)

(** C1. Calling the factory returned by [nest(C1, ..., Cn)] with a props
    object whose [children] is [X] folds from right to left.  The accumulator
    starts at [X]; the factory of [Cn] is called first, on [X], and every
    earlier factory on the accumulator so far, each with the props object of
    the call; the log records exactly these calls, with descending index.  The
    result has the factory of [C1] outermost, that of [Cn] innermost and [X]
    at the core. *)
Theorem nest_right_to_left env Cs log0 arg X log :
  arg !! "children" = Some X →
  call (nest env Cs log0).1 arg log =
    (nested (createEagerFactory <$> Cs) arg X,
     log ++ render_events 0 (createEagerFactory <$> Cs) arg X).
Proof.
  intros HX. rewrite nest_call, Nest_run, rest_props_all.
  unfold children_of. by rewrite HX.
Qed.

(** C3. [nest()] is the identity on children: with no input, the factory
    returns the [children] of its argument as it is, and calls nothing. *)
Theorem nest_empty env log0 arg X log :
  arg !! "children" = Some X →
  call (nest env [] log0).1 arg log = (X, log).
Proof.
  intros HX. rewrite nest_call, Nest_run. cbn.
  unfold children_of. by rewrite HX, app_nil_r.
Qed.

(** C4. [nest(A)] called with a props object [p] makes one call, of the
    factory of [A] with the two arguments [(p, p.children)], and returns what
    that returns. *)
Theorem nest_single env (A : Component) log0 arg log :
  call (nest env [A] log0).1 arg log =
    (createEagerFactory A arg (default undefined (arg !! "children")),
     log ++ [Render 0 arg (default undefined (arg !! "children"))]).
Proof. by rewrite nest_call, Nest_run, rest_props_all. Qed.

(** *** The props seen by the factories *)

(** C2. In one call, every factory is given the same props object, at every
    level, and it is the props object the nested factory was called with:
    nothing is taken out of it and nothing is changed in it. *)
Theorem nest_same_props env Cs log0 arg log :
  observed_props (call (nest env Cs log0).1 arg log).2 =
    observed_props log ++ replicate (length Cs) arg.
Proof.
  rewrite nest_call, Nest_run, rest_props_all. cbn [snd].
  by rewrite observed_props_app, observed_props_render_events, length_fmap.
Qed.

(** C9, as the code has it. The first argument of every factory is the
    argument of the call with every key it has, [children] too: the rest
    element stands first in the pattern and takes them all.  There is one
    such call per input, and the [children] of the argument also go in
    separately, as the seed of the fold. *)
Theorem nest_props_keep_children env Cs arg :
  (∀ props, props ∈ observed_props (render env Cs arg).2 →
     ∀ key, props !! key = arg !! key)
  ∧ length (observed_props (render env Cs arg).2) = length Cs
  ∧ (∀ X, arg !! "children" = Some X →
       (render env Cs arg).1 = nested (createEagerFactory <$> Cs) arg X).
Proof.
  unfold render. rewrite nest_run. cbn [call]. rewrite Nest_run, rest_props_all.
  cbn [fst snd].
  rewrite !observed_props_app, observed_props_render_events, length_fmap.
  assert (observed_props (Value:=Value) (Normalize <$> Cs) = []) as ->
    by by induction Cs.
  assert (observed_props (Value:=Value)
            (if not_production env then DisplayName <$> Cs else []) = []) as ->.
  { destruct (not_production env); [by induction Cs | done]. }
  cbn [app]. split; [| split; [apply length_replicate |]].
  - by intros props [-> _]%elem_of_replicate.
  - intros X HX. unfold children_of. by rewrite HX.
Qed.

(** *** Eager normalization *)

(** C5. [nest(C1, ..., Cn)] applies [createEagerFactory] once to each [Ci],
    in order, while it builds the factory; calling the factory, any number
    of times and with any arguments, applies it to nothing. *)
Theorem nest_normalizes_once env Cs log0 :
  normalizer_calls (nest env Cs log0).2 = normalizer_calls log0 ++ Cs
  ∧ ∀ (args : list (gmap string Value)) log,
      normalizer_calls (call_each (call (nest env Cs log0).1) args log).2 =
        normalizer_calls log.
Proof.
  split.
  - rewrite nest_run. cbn [snd].
    rewrite !normalizer_calls_app, normalizer_calls_Normalize.
    destruct (not_production env);
      by rewrite ?normalizer_calls_DisplayName, app_nil_r.
  - intros args log. rewrite nest_call.
    apply call_each_Nest_normalizer_calls.
Qed.

(** *** The label *)

(** C6. Outside production, the factory returned by [nest] carries as
    [displayName] the display names of the inputs, in order, separated by a
    comma and a space, inside [nest(...)]; for two inputs named [A] and [B]
    it is [nest(A, B)]. *)
Theorem nest_label env Cs log0 :
  env ≠ Some "production" →
  displayName (nest env Cs log0).1 =
    Some ("nest(" +:+ String.concat ", " (getDisplayName <$> Cs) +:+ ")")
  ∧ ∀ A B : Component,
      getDisplayName A = "A" → getDisplayName B = "B" →
      displayName (nest env [A; B] log0).1 = Some "nest(A, B)".
Proof.
  intros Henv%not_production_true. split.
  - by rewrite nest_displayName, Henv, join_concat.
  - intros A B HA HB. rewrite nest_displayName, Henv. cbn.
    by rewrite HA, HB.
Qed.

(** C10. Outside production, [nest()] is labelled too, with [nest()]. *)
Theorem nest_empty_label env log0 :
  env ≠ Some "production" →
  displayName (nest env [] log0).1 = Some "nest()".
Proof. intros Henv%not_production_true. by rewrite nest_displayName, Henv. Qed.

(** C8. The build mode decides the label and nothing else: the factories
    built from the same inputs in any two modes are the same function of
    their argument and of the log, and in production no label is set. *)
Theorem nest_build_mode env env' Cs log0 log0' :
  call (nest env Cs log0).1 = call (nest env' Cs log0').1
  ∧ displayName (nest (Some "production") Cs log0).1 = None.
Proof. split; [by rewrite !nest_call | by rewrite nest_displayName]. Qed.

End Properties.

(** ** No hidden state *)

Section NoHiddenState.
Context {Value Component State : Type}.
Variable undefined : Value.
Variable createEagerFactory : Component → @Stateful.Factory Value State.
Variable getDisplayName : Component → string.

Implicit Types (Fs : list (@Stateful.Factory Value State)).

Lemma stateful_nest_call env (Cs : list Component) :
  Stateful.call (Stateful.nest undefined createEagerFactory getDisplayName env Cs) =
    Stateful.Nest undefined (createEagerFactory <$> Cs).
Proof. unfold Stateful.nest. by case_bool_decide. Qed.

Lemma stateful_reduceRight_from_S {A B}
    (callback : B → A → nat → @Stateful.St State B) (O : list A) k X :
  Stateful.reduceRight_from callback O (S k) X =
    match O !! k with
    | Some x =>
        fun s => let '(Y, s') := callback X x k s in
                 Stateful.reduceRight_from callback O k Y s'
    | None => Stateful.reduceRight_from callback O k X
    end.
Proof. done. Qed.

(** On factories of the data model the two embeddings of [Nest] agree. *)
Lemma stateful_reduceRight_from_lift
    (fs : list (gmap string Value → Value → Value))
    (props : gmap string Value) k X s :
  k ≤ length fs →
  Stateful.reduceRight_from (fun child factory _ => factory props child)
    (Stateful.lift (State:=State) <$> fs) k X s =
    (nested (take k fs) props X, s).
Proof.
  revert X. induction k as [|k IH]; intros X Hk; [done |].
  destruct (fs !! k) as [f|] eqn:Hf.
  2:{ apply lookup_ge_None in Hf. lia. }
  rewrite stateful_reduceRight_from_S, list_lookup_fmap, Hf.
  change (Stateful.reduceRight_from (fun child factory _ => factory props child)
            (Stateful.lift (State:=State) <$> fs) k (f props X) s =
          (nested (take (S k) fs) props X, s)).
  rewrite IH by lia. rewrite (take_S_r _ _ _ Hf).
  f_equal. symmetry. apply nested_snoc.
Qed.

Lemma stateful_Nest_lift (fs : list (Factory Value)) arg s :
  Stateful.Nest undefined (Stateful.lift (State:=State) <$> fs) arg s =
    (nested fs arg (default undefined (arg !! "children")), s).
Proof.
  unfold Stateful.Nest, Stateful.reduceRight.
  rewrite stateful_reduceRight_from_lift by by rewrite length_fmap.
  by rewrite length_fmap, firstn_all.
Qed.

(** With factories that keep no state, the loop of [reduceRight] leaves the
    state as it is and returns the same in every state. *)
Lemma reduceRight_from_stateless Fs (props : gmap string Value) k X s s' :
  Forall Stateful.stateless Fs →
  Stateful.reduceRight_from (fun child factory _ => factory props child) Fs k X s =
    ((Stateful.reduceRight_from
        (fun child factory _ => factory props child) Fs k X s').1, s).
Proof.
  intros HFs. revert X s s'. induction k as [|k IH]; intros X s s'; [done |].
  rewrite !stateful_reduceRight_from_S.
  destruct (_ !! k) as [F|] eqn:HF; [| apply IH].
  assert (HF' : Stateful.stateless F).
  { eapply Forall_forall; [exact HFs |]. eapply list_elem_of_lookup_2, HF. }
  rewrite (HF' props X s s').
  destruct (F props X s') as [Y t]. cbn [fst]. apply IH.
Qed.

(** C7, as the code has it. The nested factory keeps nothing between calls:
    when the factories of the inputs keep no state, calling it leaves the
    state of the program as it is, two calls in a row with the same props
    object return the same, and so does a call in any other state. *)
Theorem nest_stateless env (Cs : list Component) arg s :
  Forall (fun C => Stateful.stateless (createEagerFactory C)) Cs →
  let N := Stateful.nest undefined createEagerFactory getDisplayName env Cs in
  let first := Stateful.call N arg s in
  let second := Stateful.call N arg first.2 in
  first.1 = second.1 ∧ first.2 = s ∧ second.2 = s
  ∧ ∀ s', (Stateful.call N arg s').1 = first.1.
Proof.
  intros HCs. cbn zeta. rewrite stateful_nest_call.
  assert (HFs : Forall Stateful.stateless (createEagerFactory <$> Cs))
    by by apply Forall_fmap.
  assert (Hrun : ∀ t t', Stateful.Nest undefined (createEagerFactory <$> Cs) arg t =
            ((Stateful.Nest undefined (createEagerFactory <$> Cs) arg t').1, t)).
  { intros t t'. by apply reduceRight_from_stateless. }
  rewrite (Hrun s s). cbn [fst snd]. rewrite (Hrun s s). cbn [fst snd].
  repeat split. intros s'. by rewrite (Hrun s' s).
Qed.

End NoHiddenState.

(** ** The markup host *)

Import Markup.

(** [nest(A, B)] renders as [<A><B>{children}</B></A>], every level with the
    props passed through. *)
Example nest_A_B_renders :
  (render None [element "A"; element "B"] with_children).1 =
    VElement "A"
      [("children",
        VElement "B" [("children", VText "x"); ("pass", VText "through")]);
       ("pass", VText "through")].
Proof. vm_compute. reflexivity. Qed.

(** Each level of [nest(A, B)], called with [{ children: 'x', pass: 'through' }],
    is handed that very object. *)
Example nest_A_B_props :
  observed_props (render None [element "A"; element "B"] with_children).2 =
    [with_children; with_children].
Proof. reflexivity. Qed.

(** The factory of a one-argument renderer overwrites the [children] of its
    first argument. *)
Lemma normalize_Renderer_overwrites name render' :
  overwrites_children (normalize (Renderer name render')).
Proof. intros props child X. cbn. by rewrite insert_insert_eq. Qed.

Lemma element_overwrites (types : list string) :
  Forall (fun C => overwrites_children (createEagerFactory C)) (element <$> types).
Proof. apply Forall_fmap, Forall_true. intros type. apply normalize_Renderer_overwrites. Qed.

Lemma nest_right_to_left_witness :
  with_children !! "children" = Some (VText "x")
  ∧ call (nest None [element "A"; element "B"] []).1 with_children [] =
      (nested (createEagerFactory <$> [element "A"; element "B"])
         with_children (VText "x"),
       [] ++ render_events 0 (createEagerFactory <$> [element "A"; element "B"])
               with_children (VText "x")).
Proof.
  split; [reflexivity |].
  apply (nest_right_to_left None [element "A"; element "B"] []
           with_children (VText "x") []).
  reflexivity.
Defined.

Lemma nest_empty_witness :
  only_children !! "children" = Some (VText "x")
  ∧ call (nest (Component:=component) None [] []).1 only_children [] =
      (VText "x", []).
Proof.
  split; [reflexivity |].
  apply (nest_empty (Component:=component) None [] only_children (VText "x") []).
  reflexivity.
Defined.

Lemma nest_props_keep_children_witness :
  only_children !! "children" = Some (VText "x")
  ∧ (render None [props_children] only_children).1 =
      nested (createEagerFactory <$> [props_children]) only_children (VText "x").
Proof.
  split; [reflexivity |].
  apply (nest_props_keep_children None [props_children] only_children).
  reflexivity.
Defined.

Lemma nest_label_witness :
  Some "development" ≠ Some "production"
  ∧ getDisplayName (element "A") = "A"
  ∧ getDisplayName (element "B") = "B"
  ∧ displayName (nest (Some "development") [element "A"; element "B"] []).1 =
      Some "nest(A, B)".
Proof.
  assert (Hdev : Some "development" ≠ Some "production") by discriminate.
  split; [exact Hdev |]. split; [reflexivity |]. split; [reflexivity |].
  apply (nest_label (Some "development") [] [] Hdev); reflexivity.
Defined.

Lemma nest_empty_label_witness :
  None ≠ Some "production"
  ∧ displayName (nest (Component:=component) None [] []).1 = Some "nest()".
Proof.
  assert (Hnone : @None string ≠ Some "production") by discriminate.
  split; [exact Hnone |].
  apply (nest_empty_label (Component:=component) None [] Hnone).
Defined.

(** Against C9 as stated: called with [{ children: 'x' }], the factory of [A]
    is given a props object that has [children], with ['x'] under it. *)
Lemma nest_props_keep_children_counterexample :
  (∃ props : gmap string value,
     props ∈ observed_props (render None [element "A"] only_children).2
     ∧ props !! "children" = Some (VText "x"))
  ∧ ¬ ∀ props : gmap string value,
        props ∈ observed_props (render None [element "A"] only_children).2 →
        props !! "children" = None.
Proof.
  assert (Hin : only_children ∈
                observed_props (render None [element "A"] only_children).2)
    by (vm_compute; left).
  split.
  - exists only_children. by split.
  - intros Hall. by apply Hall in Hin.
Qed.

Lemma nest_stateless_witness :
  Forall (fun C : Stateful.Factory => Stateful.stateless C)
    [Stateful.passthrough; Stateful.passthrough]
  ∧ (Stateful.call (Stateful.nest_of [Stateful.passthrough; Stateful.passthrough])
       {[ "children" := 7 ]} 3).1 =
    (Stateful.call (Stateful.nest_of [Stateful.passthrough; Stateful.passthrough])
       {[ "children" := 7 ]}
       (Stateful.call
          (Stateful.nest_of [Stateful.passthrough; Stateful.passthrough])
          {[ "children" := 7 ]} 3).2).1.
Proof.
  assert (Hpass : Forall (fun C : Stateful.Factory => Stateful.stateless C)
                    [Stateful.passthrough; Stateful.passthrough])
    by (repeat constructor).
  split; [exact Hpass |].
  apply (nest_stateless 0 (fun C => C) (fun _ => "Component") None
           [Stateful.passthrough; Stateful.passthrough] {[ "children" := 7 ]} 3
           Hpass).
Defined.

(** Against C7 as stated: [nest(Counter)], for a component that counts its
    renders, called twice in a row with the same props object, renders [0]
    and then [1]. *)
Lemma nest_stateful_counterexample :
  (Stateful.call (Stateful.nest_of [Stateful.counter]) {[ "children" := 7 ]} 0).1
    = 0
  ∧ (Stateful.call (Stateful.nest_of [Stateful.counter]) {[ "children" := 7 ]}
       (Stateful.call (Stateful.nest_of [Stateful.counter])
          {[ "children" := 7 ]} 0).2).1 = 1
  ∧ (Stateful.call (Stateful.nest_of [Stateful.counter]) {[ "children" := 7 ]} 0).1
    ≠ (Stateful.call (Stateful.nest_of [Stateful.counter]) {[ "children" := 7 ]}
         (Stateful.call (Stateful.nest_of [Stateful.counter])
            {[ "children" := 7 ]} 0).2).1.
Proof. split; [reflexivity |]. split; [reflexivity |]. discriminate. Qed.

(** ** Further properties of [nest] *)

Section Further.
Context `{Host Value Component}.

Implicit Types (Cs : list Component) (arg : gmap string Value).
Implicit Types (log : list (event Value Component)) (env : option string).
Implicit Types (Fs : list (Factory Value)).

Lemma nested_app Fs1 Fs2 (props : gmap string Value) X :
  nested (Fs1 ++ Fs2) props X = nested Fs1 props (nested Fs2 props X).
Proof. induction Fs1 as [|F Fs1 IH]; simpl; [done | by rewrite IH]. Qed.

Lemma children_of_insert arg X : children_of (<["children" := X]> arg) = X.
Proof. unfold children_of. by rewrite lookup_insert_eq. Qed.

(** Factories that overwrite [children] nest the same whatever the props
    have under [children], or whether they have it. *)
Lemma nested_overwrites_insert Fs (props : gmap string Value) X Y :
  Forall overwrites_children Fs →
  nested Fs (<["children" := X]> props) Y = nested Fs props Y.
Proof.
  induction 1 as [|F Fs HF _ IH]; [done |].
  cbn [nested]. by rewrite IH, HF.
Qed.

Lemma nested_overwrites_delete Fs (props : gmap string Value) Y :
  Forall overwrites_children Fs →
  nested Fs (delete "children" props) Y = nested Fs props Y.
Proof.
  intros HFs. destruct (props !! "children") as [X|] eqn:HX.
  - rewrite <- (insert_delete_id props "children" X HX) at 2.
    by rewrite nested_overwrites_insert.
  - by rewrite (delete_id _ _ HX).
Qed.

Lemma name_calls_app log log' :
  name_calls (log ++ log') = name_calls log ++ name_calls log'.
Proof. apply omap_app. Qed.

Lemma rendered_indices_app log log' :
  rendered_indices (log ++ log') = rendered_indices log ++ rendered_indices log'.
Proof. apply omap_app. Qed.

Lemma name_calls_render_events i Fs (props : gmap string Value) X :
  name_calls (render_events (Component:=Component) i Fs props X) = [].
Proof.
  revert i. induction Fs as [|F Fs IH]; intros i; [done |].
  cbn [render_events]. by rewrite name_calls_app, IH.
Qed.

(** A pass calls the factories by descending index. *)
Lemma rendered_indices_render_events i Fs (props : gmap string Value) X :
  rendered_indices (render_events (Component:=Component) i Fs props X) =
    reverse (seq i (length Fs)).
Proof.
  revert i. induction Fs as [|F Fs IH]; intros i; [done |].
  cbn [render_events length seq].
  by rewrite rendered_indices_app, IH, reverse_cons.
Qed.

(** The factory at index [k] is called on what the factories after it make of
    the seed. *)
Lemma render_events_level i Fs k F (props : gmap string Value) X :
  Fs !! k = Some F →
  Render (Component:=Component) (i + k) props (nested (drop (S k) Fs) props X)
    ∈ render_events i Fs props X.
Proof.
  revert i k. induction Fs as [|G Fs IH]; intros i k HF; [done |].
  cbn [render_events]. apply elem_of_app. destruct k as [|k].
  - right. rewrite Nat.add_0_r. cbn [drop]. by apply list_elem_of_singleton.
  - left. replace (i + S k) with (S i + k) by lia. by apply IH.
Qed.

(** *** Composition *)

(** X1. When the factories of [Cs1] overwrite the [children] of their first
    argument, [nest(...Cs1, ...Cs2)] renders what [nest(...Cs1)] renders when
    the [children] of its argument are replaced by what [nest(...Cs2)] renders
    for the same argument. *)
Theorem nest_app env Cs1 Cs2 log0 log1 log2 arg log log' log'' :
  Forall (fun C => overwrites_children (createEagerFactory C)) Cs1 →
  (call (nest env (Cs1 ++ Cs2) log0).1 arg log).1 =
    (call (nest env Cs1 log1).1
       (<["children" := (call (nest env Cs2 log2).1 arg log'').1]> arg) log').1.
Proof.
  intros HCs1%Forall_fmap. rewrite !nest_call, !Nest_run, !rest_props_all.
  cbn [fst].
  by rewrite fmap_app, nested_app, children_of_insert, nested_overwrites_insert.
Qed.

(** X2. An input whose factory threads its second argument into the props,
    under [children], and hands them to [nest(...Cs2)] can be replaced by the
    inputs [Cs2] themselves, when their factories overwrite the [children] of
    their first argument: nesting a nested factory is nesting its inputs in
    place. *)
Theorem nest_flatten env Cs1 (C : Component) Cs2 Cs3 arg :
  (∀ props child,
     createEagerFactory C props child =
       (Nest (createEagerFactory <$> Cs2) (<["children" := child]> props) []).1) →
  Forall (fun C => overwrites_children (createEagerFactory C)) Cs2 →
  (render env (Cs1 ++ C :: Cs3) arg).1 = (render env (Cs1 ++ Cs2 ++ Cs3) arg).1.
Proof.
  intros HC HCs2%Forall_fmap. unfold render. rewrite !nest_run. cbn [call].
  rewrite !Nest_run, !rest_props_all. cbn [fst].
  rewrite !fmap_app, fmap_cons, !nested_app. cbn [nested].
  rewrite HC, Nest_run, rest_props_all. cbn [fst].
  by rewrite children_of_insert, nested_overwrites_insert.
Qed.

(** *** The argument *)

(** X3. Called with an argument that has no [children], the nested factory seeds
    the fold with [undefined] and hands every factory the argument itself. *)
Theorem nest_no_children env Cs log0 arg log :
  arg !! "children" = None →
  call (nest env Cs log0).1 arg log =
    (nested (createEagerFactory <$> Cs) arg undefined,
     log ++ render_events 0 (createEagerFactory <$> Cs) arg undefined).
Proof.
  intros Hnone. rewrite nest_call, Nest_run, rest_props_all.
  unfold children_of. by rewrite Hnone.
Qed.

(** X4. When the factories of the inputs overwrite the [children] of their
    first argument, what the nested factory renders depends on its argument
    through the keys other than [children] and through the value read under
    [children] only: [children] set to [undefined] and no [children] at all
    render the same. *)
Theorem nest_children_read_once env Cs log0 arg arg' log log' :
  Forall (fun C => overwrites_children (createEagerFactory C)) Cs →
  (∀ key, key ≠ "children" → arg !! key = arg' !! key) →
  default undefined (arg !! "children") = default undefined (arg' !! "children") →
  (call (nest env Cs log0).1 arg log).1 = (call (nest env Cs log0).1 arg' log').1.
Proof.
  intros HCs%Forall_fmap Hkeys Hchildren.
  rewrite nest_call, !Nest_run, !rest_props_all. cbn [fst].
  unfold children_of. rewrite Hchildren.
  rewrite <- (nested_overwrites_delete _ arg), <- (nested_overwrites_delete _ arg')
    by done.
  f_equal. apply map_eq. intros key.
  destruct (decide (key = "children")) as [->|Hkey].
  - by rewrite !lookup_delete_eq.
  - by rewrite !lookup_delete_ne, Hkeys.
Qed.

(** *** The calls *)

(** X5. Building a nested factory calls [createEagerFactory] on every input, in
    order, and then, unless in production, [getDisplayName] on every input, in
    order; it makes no other call, and none of a factory. *)
Theorem nest_construction_log env Cs log0 :
  (env = Some "production" →
     (nest env Cs log0).2 = log0 ++ (Normalize <$> Cs))
  ∧ (env ≠ Some "production" →
     (nest env Cs log0).2 = log0 ++ (Normalize <$> Cs) ++ (DisplayName <$> Cs)).
Proof.
  rewrite nest_run. cbn [snd]. split.
  - intros ->. cbn. by rewrite app_nil_r.
  - intros Henv. by rewrite (not_production_true _ Henv).
Qed.

(** X6. Calling a nested factory, any number of times and with any arguments,
    never calls [getDisplayName]. *)
Theorem nest_call_no_getDisplayName env Cs log0
    (args : list (gmap string Value)) log :
  name_calls (call_each (call (nest env Cs log0).1) args log).2 = name_calls log.
Proof.
  rewrite nest_call. revert log.
  induction args as [|arg args IH]; intros log; [done |].
  cbn [call_each]. unfold bind at 1. rewrite Nest_run.
  unfold bind at 1.
  destruct (call_each _ args _) as [bs log'] eqn:E.
  unfold ret. cbn [snd]. change log' with (bs, log').2.
  rewrite <- E, IH.
  by rewrite name_calls_app, name_calls_render_events, app_nil_r.
Qed.

(** X7. One call of a nested factory of [n] inputs calls each of its factories
    once, from index [n - 1] down to [0]. *)
Theorem nest_call_order env Cs log0 arg log :
  rendered_indices (call (nest env Cs log0).1 arg log).2 =
    rendered_indices log ++ reverse (seq 0 (length Cs)).
Proof.
  rewrite nest_call, Nest_run. cbn [snd].
  by rewrite rendered_indices_app, rendered_indices_render_events, length_fmap.
Qed.

(** X8. The child handed to the factory of the input at index [k] is what the
    nested factory of the inputs after it renders for the same argument; the
    props handed with it are the argument of the call. *)
Theorem nest_child_of_level env Cs k (C : Component) log0 log1 arg log log' :
  Cs !! k = Some C →
  Render k arg (call (nest env (drop (S k) Cs) log1).1 arg log').1
    ∈ (call (nest env Cs log0).1 arg log).2.
Proof.
  intros HC. rewrite !nest_call, !Nest_run, !rest_props_all. cbn [fst snd].
  apply elem_of_app. right. rewrite fmap_drop.
  apply (render_events_level 0 _ k (createEagerFactory C)).
  by rewrite list_lookup_fmap, HC.
Qed.

End Further.

Lemma nest_app_witness :
  Forall (fun C => overwrites_children (createEagerFactory C))
    (element <$> ["A"])
  ∧ (call (nest None ((element <$> ["A"]) ++ [props_children]) []).1
       with_children []).1 =
    (call (nest None (element <$> ["A"]) []).1
       (<["children" :=
            (call (nest None [props_children] []).1 with_children []).1]>
          with_children) []).1.
Proof.
  split; [apply element_overwrites |].
  apply (nest_app None (element <$> ["A"]) [props_children] [] [] []
           with_children [] [] []).
  apply element_overwrites.
Defined.

Lemma nest_flatten_witness :
  (∀ props child,
     createEagerFactory nest_B_C props child =
       (Nest (createEagerFactory <$> (element <$> ["B"; "C"]))
          (<["children" := child]> props) []).1)
  ∧ Forall (fun C => overwrites_children (createEagerFactory C))
      (element <$> ["B"; "C"])
  ∧ (render None ([element "A"] ++ nest_B_C :: []) with_children).1 =
      (render None ([element "A"] ++ (element <$> ["B"; "C"]) ++ [])
         with_children).1.
Proof.
  assert (Hnest : ∀ props child,
     createEagerFactory nest_B_C props child =
       (Nest (createEagerFactory <$> (element <$> ["B"; "C"]))
          (<["children" := child]> props) []).1) by (intros; reflexivity).
  split; [exact Hnest |]. split; [apply element_overwrites |].
  apply (nest_flatten None [element "A"] nest_B_C (element <$> ["B"; "C"]) []
           with_children Hnest).
  apply element_overwrites.
Defined.

Lemma nest_no_children_witness :
  without_children !! "children" = None
  ∧ call (nest None [element "A"] []).1 without_children [] =
      (nested (createEagerFactory <$> [element "A"]) without_children undefined,
       [] ++ render_events 0 (createEagerFactory <$> [element "A"])
               without_children undefined).
Proof.
  split; [reflexivity |].
  apply (nest_no_children None [element "A"] [] without_children []).
  reflexivity.
Defined.

Lemma nest_children_read_once_witness :
  Forall (fun C => overwrites_children (createEagerFactory C))
    (element <$> ["A"; "B"])
  ∧ (∀ key, key ≠ "children" →
       (<["children" := VUndefined]> without_children) !! key =
         without_children !! key)
  ∧ default undefined ((<["children" := VUndefined]> without_children) !! "children") =
      default undefined (without_children !! "children")
  ∧ (call (nest None (element <$> ["A"; "B"]) []).1
       (<["children" := VUndefined]> without_children) []).1 =
    (call (nest None (element <$> ["A"; "B"]) []).1 without_children []).1.
Proof.
  assert (Hkeys : ∀ key, key ≠ "children" →
       (<["children" := VUndefined]> without_children) !! key =
         without_children !! key)
    by (intros key Hkey; by apply lookup_insert_ne).
  split; [apply element_overwrites |]. split; [exact Hkeys |].
  split; [reflexivity |].
  apply (nest_children_read_once None (element <$> ["A"; "B"]) []
           (<["children" := VUndefined]> without_children) without_children
           [] []).
  - apply element_overwrites.
  - exact Hkeys.
  - reflexivity.
Defined.

Lemma nest_construction_log_witness :
  (Some "production" = Some "production"
   ∧ (nest (Some "production") [element "A"; element "B"] []).2 =
       [] ++ (Normalize <$> [element "A"; element "B"]))
  ∧ (None ≠ Some "production"
     ∧ (nest None [element "A"; element "B"] []).2 =
         [] ++ (Normalize <$> [element "A"; element "B"]) ++
           (DisplayName <$> [element "A"; element "B"])).
Proof.
  assert (Hnone : @None string ≠ Some "production") by discriminate.
  split; (split; [done |]).
  - apply (nest_construction_log (Some "production")
             [element "A"; element "B"] []).
    reflexivity.
  - apply (nest_construction_log None [element "A"; element "B"] []).
    exact Hnone.
Defined.

Lemma nest_child_of_level_witness :
  [element "A"; element "B"] !! 0 = Some (element "A")
  ∧ Render 0 with_children
      (call (nest None (drop 1 [element "A"; element "B"]) []).1
         with_children []).1
    ∈ (call (nest None [element "A"; element "B"] []).1 with_children []).2.
Proof.
  split; [reflexivity |].
  apply (nest_child_of_level None [element "A"; element "B"] 0 (element "A")
           [] [] with_children [] []).
  reflexivity.
Defined.
